(** * Intent detection of [src/intents.py], shallow embedding

    The module [intents.py] classifies a free-text sentence into resource
    categories by regular-expression keyword matching, with a five-token
    negation lookback.  Text is modelled as a list of ASCII characters; the
    regular expressions the code builds are all of the shape [\b lit \b] (a
    literal between two word boundaries) or [\b(alt|...|alt)\b], and are
    embedded as such.  Python's [str] functions ([lower], [split],
    [capitalize], [in]) are embedded on ASCII text. *)

From Stdlib Require Import Ascii String List Bool Arith Lia.
Import ListNotations.
Open Scope bool_scope.
Open Scope string_scope.
Open Scope list_scope.

(** ** Characters (Python's [\w], [str.isspace], [str.lower], [str.upper]) *)

Definition in_range (lo hi : nat) (c : ascii) : bool :=
  ((lo <=? nat_of_ascii c) && (nat_of_ascii c <=? hi))%nat.

(** [\w] on ASCII: letters, digits and underscore. *)
Definition is_word (c : ascii) : bool :=
  in_range 48 57 c || in_range 65 90 c || in_range 97 122 c || in_range 95 95 c.

(** ASCII whitespace as [str.split()] sees it: \t \n \v \f \r, \x1c-\x1f, space. *)
Definition is_space (c : ascii) : bool :=
  in_range 9 13 c || in_range 28 32 c.

Definition lower_char (c : ascii) : ascii :=
  if in_range 65 90 c then ascii_of_nat (nat_of_ascii c + 32) else c.

Definition upper_char (c : ascii) : ascii :=
  if in_range 97 122 c then ascii_of_nat (nat_of_ascii c - 32) else c.

Notation text := (list ascii).

Definition las (s : string) : text := list_ascii_of_string s.

(** [s.lower()] *)
Definition lower (s : string) : text := map lower_char (las s).

(** ** Regular expressions [\b lit \b] *)

Definition word_at (t : text) (i : nat) : bool :=
  match nth_error t i with Some c => is_word c | None => false end.

Definition word_before (t : text) (i : nat) : bool :=
  match i with 0 => false | S j => word_at t j end.

(** [\b] at position [i]: a word character on exactly one side. *)
Definition boundary (t : text) (i : nat) : bool :=
  xorb (word_before t i) (word_at t i).

(** Character comparison, case-insensitive under [re.IGNORECASE]. *)
Definition char_eq (ci : bool) (a b : ascii) : bool :=
  if ci then Ascii.eqb (lower_char a) (lower_char b) else Ascii.eqb a b.

(** [w] is a prefix of [t]. *)
Fixpoint lit_eq (ci : bool) (w t : text) : bool :=
  match w, t with
  | [], _ => true
  | a :: w', b :: t' => char_eq ci a b && lit_eq ci w' t'
  | _ :: _, [] => false
  end.

(** The pattern [\b w \b] matches [t] at position [i]. *)
Definition match_at (ci : bool) (t w : text) (i : nat) : bool :=
  boundary t i && lit_eq ci w (skipn i t) && boundary t (i + length w).

(** [re.search(\b w \b, t)] *)
Definition search (ci : bool) (t w : text) : bool :=
  existsb (match_at ci t w) (seq 0 (S (length t))).

(** [re.finditer(\b w \b, t)]: the start positions of the successive
    non-overlapping matches, scanning left to right; after a match at [i]
    the scan resumes at [i + length w] ([k] counts the positions still
    covered by the last match). *)
Fixpoint scan (ci : bool) (t w : text) (n i k : nat) : list nat :=
  match n with
  | 0 => []
  | S n' =>
      match k with
      | S k' => scan ci t w n' (S i) k'
      | 0 => if match_at ci t w i
             then i :: scan ci t w n' (S i) (length w - 1)
             else scan ci t w n' (S i) 0
      end
  end.

Definition finditer (ci : bool) (t w : text) : list nat :=
  scan ci t w (S (length t)) 0 0.

(** [re.search(\b(a1|...|an)\b, t)]: some position, some alternative. *)
Definition search_alt (ci : bool) (alts : list string) (t : text) : bool :=
  existsb (fun i => existsb (fun a => match_at ci t (las a) i) alts)
          (seq 0 (S (length t))).

(** ** [str.split()] and [l[-n:]] *)

Fixpoint split_aux (t : text) (cur : text) : list text :=
  match t with
  | [] => match cur with [] => [] | _ => [rev cur] end
  | c :: t' =>
      if is_space c
      then match cur with
           | [] => split_aux t' []
           | _ => rev cur :: split_aux t' []
           end
      else split_aux t' (c :: cur)
  end.

Definition split (t : text) : list text := split_aux t [].

Definition lastn {A} (n : nat) (l : list A) : list A := skipn (length l - n) l.

(** ** Static tables *)

Record CategoryDefinition := {
  keywords : list string;
  cloud_resources : list (string * list string)
}.

Definition INTENT_CATEGORIES : list (string * CategoryDefinition) := [
  ("networking", {|
    keywords := ["vpc"; "vnet"; "network"; "subnet"; "gateway"; "load balancer";
                 "alb"; "nlb"; "vpn"; "dns"; "route"; "peering"];
    cloud_resources := [
      ("aws", ["vpc"; "subnet"; "internet_gateway"; "nat_gateway"; "route_table";
               "elastic_load_balancer"; "application_load_balancer"]);
      ("azure", ["virtual_network"; "subnet"; "vpn_gateway"; "load_balancer"]);
      ("gcp", ["compute_network"; "compute_subnetwork"; "compute_vpn_gateway";
               "compute_forwarding_rule"])] |});
  ("compute", {|
    keywords := ["server"; "instance"; "ec2"; "vm"; "virtual machine"; "compute";
                 "container"; "auto scaling"; "asg"; "vmss"; "small"; "medium"; "large"];
    cloud_resources := [
      ("aws", ["ec2_instance"; "autoscaling_group"; "launch_template"]);
      ("azure", ["linux_virtual_machine"; "windows_virtual_machine";
                 "virtual_machine_scale_set"]);
      ("gcp", ["compute_instance"; "compute_instance_group_manager"])] |});
  ("database", {|
    keywords := ["database"; "db"; "rds"; "sql"; "mysql"; "postgres"; "postgresql";
                 "dynamodb"; "cosmosdb"; "firestore"; "mongodb"; "mariadb"];
    cloud_resources := [
      ("aws", ["db_instance"; "dynamodb_table"; "rds_cluster"]);
      ("azure", ["mssql_server"; "mysql_server"; "postgresql_server";
                 "cosmosdb_account"]);
      ("gcp", ["sql_database_instance"; "firestore_database"])] |});
  ("storage", {|
    keywords := ["storage"; "bucket"; "blob"; "s3"; "ebs"; "disk"; "volume";
                 "file storage"; "object storage"];
    cloud_resources := [
      ("aws", ["s3_bucket"; "ebs_volume"; "efs_file_system"]);
      ("azure", ["storage_account"; "storage_blob"; "managed_disk"]);
      ("gcp", ["storage_bucket"; "compute_disk"])] |});
  ("security", {|
    keywords := ["iam"; "role"; "policy"; "security group"; "firewall"; "acl";
                 "kms"; "key vault"; "secrets"; "certificate"; "strict"];
    cloud_resources := [
      ("aws", ["iam_role"; "iam_policy"; "security_group"; "kms_key"]);
      ("azure", ["role_assignment"; "key_vault"; "network_security_group"]);
      ("gcp", ["project_iam_binding"; "compute_firewall"; "kms_crypto_key"])] |});
  ("monitoring", {|
    keywords := ["monitor"; "monitoring"; "logs"; "alerts"; "metrics"; "cloudwatch";
                 "log analytics"; "stackdriver"];
    cloud_resources := [
      ("aws", ["cloudwatch_log_group"; "cloudwatch_metric_alarm"; "sns_topic"]);
      ("azure", ["monitor_metric_alert"; "log_analytics_workspace"]);
      ("gcp", ["monitoring_alert_policy"; "logging_metric"])] |});
  ("container", {|
    keywords := ["container"; "docker"; "kubernetes"; "k8s"; "ecs"; "eks"; "aks";
                 "gke"; "fargate"; "pod"; "deployment"];
    cloud_resources := [
      ("aws", ["ecs_cluster"; "ecs_service"; "eks_cluster"]);
      ("azure", ["kubernetes_cluster"; "container_group"]);
      ("gcp", ["container_cluster"; "container_node_pool"])] |});
  ("serverless", {|
    keywords := ["lambda"; "function"; "serverless"; "cloud function";
                 "azure function"];
    cloud_resources := [
      ("aws", ["lambda_function"; "api_gateway_rest_api"]);
      ("azure", ["function_app"]);
      ("gcp", ["cloudfunctions_function"])] |});
  ("provider", {|
    keywords := ["aws"; "amazon web services"; "azure"; "microsoft azure";
                 "gcp"; "google cloud"; "google cloud platform"];
    cloud_resources := [] |});
  ("os", {|
    keywords := ["ubuntu"; "windows"; "amazon linux"; "centos"; "rhel";
                 "debian"; "fedora"];
    cloud_resources := [] |})
].

Definition ACTION_VERBS : list (string * list string) := [
  ("create", ["create"; "deploy"; "launch"; "provision"; "setup"; "set up"; "add"; "build"]);
  ("delete", ["delete"; "remove"; "destroy"; "terminate"; "tear down"]);
  ("modify", ["modify"; "update"; "change"; "edit"; "configure"]);
  ("query", ["show"; "list"; "describe"; "get"; "what"; "which"])
].

(** [NEGATION_PATTERNS]: each pattern is [\b(alt|...)\b]. *)
Definition NEGATION_PATTERNS : list (list string) := [
  ["no"; "not"; "without"; "don't"; "dont"; "never"; "exclude"];
  ["except"; "excluding"]
].

(** ** [IntentParser] *)

(** [has_negation(text, keyword_position)] *)
Definition has_negation (t : text) (keyword_position : nat) : bool :=
  let words_before := lastn 5 (split (firstn keyword_position t)) in
  existsb (fun word =>
             existsb (fun pattern => search_alt true pattern word) NEGATION_PATTERNS)
          words_before.

(** [extract_action(sentence)]: first action (in table order) one of whose
    verbs occurs; ["create"] otherwise. *)
Fixpoint first_action (sl : text) (acts : list (string * list string)) : string :=
  match acts with
  | [] => "create"
  | (action_type, verbs) :: rest =>
      if existsb (fun verb => search false sl (las verb)) verbs
      then action_type
      else first_action sl rest
  end.

Definition extract_action (sentence : string) : string :=
  first_action (lower sentence) ACTION_VERBS.

Record DetectionResult := {
  action : string;
  categories : list (string * list string);  (* an insertion-ordered dict *)
  negated_categories : list string;           (* a set *)
  raw_sentence : string
}.

Fixpoint assoc {A} (k : string) (m : list (string * A)) : option A :=
  match m with
  | [] => None
  | (k', v) :: m' => if String.eqb k k' then Some v else assoc k m'
  end.

Definition mem (x : string) (l : list string) : bool := existsb (String.eqb x) l.

(** [set.add] *)
Definition set_add (x : string) (l : list string) : list string :=
  if mem x l then l else l ++ [x].

(** [if category not in cats: cats[category] = []] followed by
    [if keyword not in cats[category]: cats[category].append(keyword)]. *)
Fixpoint cat_add (category keyword : string) (m : list (string * list string))
  : list (string * list string) :=
  match m with
  | [] => [(category, [keyword])]
  | (c, l) :: m' =>
      if String.eqb category c
      then (c, if mem keyword l then l else l ++ [keyword]) :: m'
      else (c, l) :: cat_add category keyword m'
  end.

(** The body of the innermost loop of [detect_intents], for one match. *)
Definition record_match (category keyword : string) (negated : bool)
    (d : DetectionResult) : DetectionResult :=
  if negated
  then {| action := action d; categories := categories d;
          negated_categories := set_add category (negated_categories d);
          raw_sentence := raw_sentence d |}
  else {| action := action d; categories := cat_add category keyword (categories d);
          negated_categories := negated_categories d;
          raw_sentence := raw_sentence d |}.

(** [detect_intents(sentence)] *)
Definition detect_intents (sentence : string) : DetectionResult :=
  let sentence_lower := lower sentence in
  let detected := {| action := extract_action sentence; categories := [];
                     negated_categories := []; raw_sentence := sentence |} in
  fold_left (fun d '(category, data) =>
    fold_left (fun d keyword =>
      fold_left (fun d start =>
          record_match category keyword (has_negation sentence_lower start) d)
        (finditer true sentence_lower (las keyword)) d)
      (keywords data) d)
    INTENT_CATEGORIES detected.

(** [validate_intent(detected)] *)
Definition validate_intent (detected : DetectionResult) : bool :=
  if existsb (fun c => mem c (map fst (categories detected)))
             (negated_categories detected)
  then false
  else match categories detected with
       | [] => false
       | _ => true
       end.

(** [sub in s] for strings. *)
Definition str_contains (sub s : text) : bool :=
  existsb (fun i => lit_eq false sub (skipn i s)) (seq 0 (S (length s))).

(** [normalize_provider(detected)] *)
Definition normalize_provider (detected : DetectionResult) : option string :=
  match assoc "provider" (categories detected) with
  | None => None
  | Some [] => None
  | Some (k :: _) =>
      let keyword := lower k in
      if str_contains (las "aws") keyword || str_contains (las "amazon") keyword
      then Some "aws"
      else if str_contains (las "azure") keyword || str_contains (las "microsoft") keyword
      then Some "azure"
      else if str_contains (las "gcp") keyword || str_contains (las "google") keyword
      then Some "gcp"
      else None
  end.

(** [str.capitalize()] on ASCII. *)
Definition capitalize (s : string) : string :=
  string_of_list_ascii
    (match las s with [] => [] | c :: r => upper_char c :: map lower_char r end).

(** [extract_os(detected)] *)
Definition extract_os (detected : DetectionResult) : option string :=
  match assoc "os" (categories detected) with
  | None => None
  | Some [] => None
  | Some (os_name :: _) =>
      if String.eqb os_name "amazon linux" then Some "Amazon Linux"
      else if String.eqb os_name "rhel" then Some "RHEL"
      else Some (capitalize os_name)
  end.

(** ** Auxiliary views of the computation *)

(** Every keyword match of a keyword list, in iteration order. *)
Definition kw_matches (sl : text) (kws : list string) : list (string * nat) :=
  flat_map (fun kw => map (fun i => (kw, i)) (finditer true sl (las kw))) kws.

(** Every (category, keyword, start) match, in the iteration order of
    [detect_intents]. *)
Definition matches (sl : text) : list (string * string * nat) :=
  flat_map (fun '(category, data) =>
              map (fun '(kw, i) => (category, kw, i)) (kw_matches sl (keywords data)))
           INTENT_CATEGORIES.

(** The keyword table of a category ([INTENT_CATEGORIES[c]["keywords"]]). *)
Definition table_keywords (c : string) : list string :=
  match assoc c INTENT_CATEGORIES with Some d => keywords d | None => [] end.

(** The keywords of every table entry named [c]. *)
Definition category_keywords (c : string) : list string :=
  flat_map (fun '(c', d) => if String.eqb c c' then keywords d else [])
           INTENT_CATEGORIES.

(** One append step of the keyword list of a category. *)
Definition add_kw (kw : string) (o : option (list string)) : list string :=
  match o with None => [kw] | Some l => if mem kw l then l else l ++ [kw] end.

(** The keyword list of one category, as matches of that category arrive. *)
Definition cat_step (sl : text) (o : option (list string)) (m : string * nat)
  : option (list string) :=
  let '(kw, i) := m in if has_negation sl i then o else Some (add_kw kw o).

(** A token is a negation cue: it matches one of [NEGATION_PATTERNS]. *)
Definition negation_cue (word : text) : bool :=
  existsb (fun pattern => search_alt true pattern word) NEGATION_PATTERNS.

(** Ordered sub-sequence. *)
Inductive subseq {A : Type} : list A -> list A -> Prop :=
| subseq_nil : subseq [] []
| subseq_skip x l1 l2 : subseq l1 l2 -> subseq l1 (x :: l2)
| subseq_take x l1 l2 : subseq l1 l2 -> subseq (x :: l1) (x :: l2).

Definition init_result (sentence : string) : DetectionResult :=
  {| action := extract_action sentence; categories := [];
     negated_categories := []; raw_sentence := sentence |}.

(** Some occurrence of [kw] is not negated / is negated. *)
Definition affirmed (sl : text) (kw : string) : bool :=
  existsb (fun i => negb (has_negation sl i)) (finditer true sl (las kw)).

Definition denied (sl : text) (kw : string) : bool :=
  existsb (fun i => has_negation sl i) (finditer true sl (las kw)).

(** Some keyword of category [c] has a non-negated / negated occurrence. *)
Definition category_affirmed (sl : text) (c : string) : bool :=
  existsb (affirmed sl) (table_keywords c).

Definition category_denied (sl : text) (c : string) : bool :=
  existsb (denied sl) (table_keywords c).

Definition nonempty_opt (l : list string) : option (list string) :=
  match l with [] => None | _ => Some l end.

Definition opt_app (o : option (list string)) (l : list string) : option (list string) :=
  match o with None => nonempty_opt l | Some l0 => Some (l0 ++ l) end.

(** The dict entry [c: l], when present. *)
Definition entry (c : string) (o : option (list string)) : list (string * list string) :=
  match o with None => [] | Some l => [(c, l)] end.

Fixpoint nodupb (l : list string) : bool :=
  match l with [] => true | x :: l' => negb (mem x l') && nodupb l' end.

(** * General lemmas *)

Lemma fold_left_flat_map {A B C : Type} (f : C -> B -> C) (g : A -> list B) l a :
  fold_left f (flat_map g l) a = fold_left (fun a x => fold_left f (g x) a) l a.
Proof.
  revert a; induction l as [|x l IH]; intros a; simpl; [reflexivity|].
  rewrite fold_left_app; apply IH.
Qed.

Lemma fold_left_map' {A B C : Type} (f : C -> B -> C) (h : A -> B) l a :
  fold_left f (map h l) a = fold_left (fun a x => f a (h x)) l a.
Proof. revert a; induction l; intros; simpl; auto. Qed.

Lemma fold_left_ext' {A C : Type} (f g : C -> A -> C) l a :
  (forall a x, f a x = g a x) -> fold_left f l a = fold_left g l a.
Proof.
  intros H; revert a; induction l; intros; simpl; [reflexivity|].
  rewrite H; apply IHl.
Qed.

Lemma subseq_nil_l {A} (l : list A) : subseq [] l.
Proof. induction l; [apply subseq_nil | apply subseq_skip; auto]. Qed.

Lemma subseq_app {A} (l1 l2 l3 l4 : list A) :
  subseq l1 l2 -> subseq l3 l4 -> subseq (l1 ++ l3) (l2 ++ l4).
Proof.
  induction 1; intros Hs; simpl; auto.
  - apply subseq_skip; auto.
  - apply subseq_take; auto.
Qed.

Lemma subseq_refl {A} (l : list A) : subseq l l.
Proof. induction l; [apply subseq_nil | apply subseq_take; auto]. Qed.

Lemma mem_app_last x l : mem x (l ++ [x]) = true.
Proof.
  unfold mem; apply existsb_exists; exists x; split.
  - apply in_or_app; right; left; reflexivity.
  - apply String.eqb_refl.
Qed.

(** * [detect_intents] as one fold over its matches *)

Lemma detect_intents_fold (s : string) :
  detect_intents s =
  fold_left (fun d '(c, kw, i) => record_match c kw (has_negation (lower s) i) d)
            (matches (lower s)) (init_result s).
Proof.
  unfold detect_intents, matches, init_result.
  rewrite fold_left_flat_map.
  apply fold_left_ext'; intros d [c data].
  unfold kw_matches; rewrite fold_left_map', fold_left_flat_map.
  apply fold_left_ext'; intros d' kw.
  rewrite fold_left_map'.
  reflexivity.
Qed.

(** * The keyword list of one category *)

Lemma assoc_cat_add c c' kw m :
  assoc c (cat_add c' kw m) =
  if String.eqb c c' then Some (add_kw kw (assoc c m)) else assoc c m.
Proof.
  induction m as [|[k l] m IH]; simpl.
  - destruct (String.eqb c c'); reflexivity.
  - destruct (String.eqb_spec c' k) as [<-|Hk]; simpl.
    + destruct (String.eqb c c'); reflexivity.
    + rewrite IH.
      destruct (String.eqb_spec c k) as [->|Hck]; [|reflexivity].
      destruct (String.eqb_spec k c') as [->|]; [congruence|reflexivity].
Qed.

Lemma assoc_record_match c c' kw n d :
  assoc c (categories (record_match c' kw n d)) =
  if n then assoc c (categories d)
  else if String.eqb c c' then Some (add_kw kw (assoc c (categories d)))
  else assoc c (categories d).
Proof. unfold record_match; destruct n; simpl; [reflexivity | apply assoc_cat_add]. Qed.

Section Projection.
Variable sl : text.

Let F := fun d '(c, kw, i) => record_match c kw (has_negation sl i) d.

Lemma kw_matches_app l1 l2 :
  kw_matches sl (l1 ++ l2) = kw_matches sl l1 ++ kw_matches sl l2.
Proof. unfold kw_matches; apply flat_map_app. Qed.

Lemma assoc_block c c' L d :
  assoc c (categories (fold_left F (map (fun '(kw, i) => (c', kw, i)) L) d)) =
  if String.eqb c c' then fold_left (cat_step sl) L (assoc c (categories d))
  else assoc c (categories d).
Proof.
  revert d; induction L as [|[kw i] L IH]; intros d; simpl.
  - destruct (String.eqb c c'); reflexivity.
  - rewrite IH; unfold F; rewrite assoc_record_match.
    destruct (String.eqb c c') eqn:E; [|destruct (has_negation sl i); reflexivity].
    unfold cat_step; destruct (has_negation sl i); reflexivity.
Qed.

Lemma assoc_table c T d :
  assoc c (categories (fold_left F
     (flat_map (fun '(c', data) => map (fun '(kw, i) => (c', kw, i))
                                      (kw_matches sl (keywords data))) T) d)) =
  fold_left (cat_step sl)
     (kw_matches sl (flat_map (fun '(c', dd) => if String.eqb c c' then keywords dd else []) T))
     (assoc c (categories d)).
Proof.
  revert d; induction T as [|[c' dd] T IH]; intros d; simpl; [reflexivity|].
  rewrite fold_left_app, IH, assoc_block, kw_matches_app, fold_left_app.
  destruct (String.eqb c c'); reflexivity.
Qed.

End Projection.

Lemma category_projection s c :
  assoc c (categories (detect_intents s)) =
  fold_left (cat_step (lower s)) (kw_matches (lower s) (category_keywords c)) None.
Proof.
  rewrite detect_intents_fold; unfold matches, category_keywords.
  apply (assoc_table (lower s) c INTENT_CATEGORIES (init_result s)).
Qed.

Lemma category_keywords_table c : category_keywords c = table_keywords c.
Proof.
  unfold category_keywords, table_keywords, INTENT_CATEGORIES; simpl.
  repeat match goal with
  | |- context [String.eqb c ?x] =>
      let E := fresh "E" in
      destruct (String.eqb c x) eqn:E;
      [apply String.eqb_eq in E; subst; reflexivity |]
  end.
  reflexivity.
Qed.

(** * Matching lemmas *)

Lemma scan_sound ci t w n : forall i k j,
  In j (scan ci t w n i k) -> match_at ci t w j = true.
Proof.
  induction n as [|n IH]; intros i k j H; simpl in H; [contradiction|].
  destruct k as [|k].
  - destruct (match_at ci t w i) eqn:E.
    + destruct H as [<-|H]; [exact E | exact (IH _ _ _ H)].
    + exact (IH _ _ _ H).
  - exact (IH _ _ _ H).
Qed.

Lemma finditer_sound ci t w j : In j (finditer ci t w) -> match_at ci t w j = true.
Proof. apply scan_sound. Qed.

Lemma boundary_le t i : boundary t i = true -> i <= length t.
Proof.
  unfold boundary, word_before, word_at; intros H.
  destruct (Nat.le_gt_cases i (length t)) as [|Hlt]; [assumption|].
  destruct i as [|j]; [lia|].
  rewrite (proj2 (nth_error_None t j)) in H by lia.
  rewrite (proj2 (nth_error_None t (S j))) in H by lia.
  discriminate.
Qed.

Lemma in_kw_matches sl K kw i :
  In (kw, i) (kw_matches sl K) <-> In kw K /\ In i (finditer true sl (las kw)).
Proof.
  unfold kw_matches; rewrite in_flat_map; split.
  - intros [k [Hk Hm]]; apply in_map_iff in Hm as [j [Hj Hi]].
    inversion Hj; subst; auto.
  - intros [Hk Hi]; exists kw; split; [assumption|].
    apply in_map_iff; exists i; auto.
Qed.

(** * The keyword list of a category, step by step *)

Lemma cat_step_head sl L : forall k l,
  exists l', fold_left (cat_step sl) L (Some (k :: l)) = Some (k :: l').
Proof.
  induction L as [|[kw i] L IH]; intros k l; simpl; [eauto|].
  destruct (has_negation sl i); [apply IH|].
  simpl; destruct (String.eqb kw k || mem kw l); [apply IH|].
  apply (IH k (l ++ [kw])).
Qed.

Lemma cat_step_first sl (P : string -> Prop) L1 L2 :
  (exists kw i, In (kw, i) L1 /\ has_negation sl i = false) ->
  (forall kw i, In (kw, i) L1 -> P kw) ->
  exists k l, fold_left (cat_step sl) (L1 ++ L2) None = Some (k :: l) /\ P k.
Proof.
  induction L1 as [|[kw i] L1 IH]; intros [kw' [i' [Hin Hn]]] HP; simpl in *;
    [contradiction|].
  destruct (has_negation sl i) eqn:Hi.
  - apply IH; [|intros; eapply HP; eauto].
    destruct Hin as [Heq|Hin]; [inversion Heq; subst; congruence|eauto].
  - destruct (cat_step_head sl (L1 ++ L2) kw []) as [l' Hl'].
    exists kw, l'; split; [exact Hl'|eapply HP; eauto].
Qed.

Definition opt_sub (o : option (list string)) (P : list string) : Prop :=
  match o with None => True | Some l => subseq l P end.

Lemma cat_step_block sl k I o P :
  opt_sub o P ->
  opt_sub (fold_left (cat_step sl) (map (fun i => (k, i)) I) o) (P ++ [k]).
Proof.
  intros H0.
  assert (Hinv : forall o, (opt_sub o P \/ exists l, o = Some (l ++ [k]) /\ subseq l P) ->
     (opt_sub (fold_left (cat_step sl) (map (fun i => (k, i)) I) o) P \/
      exists l, fold_left (cat_step sl) (map (fun i => (k, i)) I) o = Some (l ++ [k])
                /\ subseq l P)).
  { induction I as [|i I IH]; intros o' Ho; simpl; [exact Ho|].
    apply IH; destruct (has_negation sl i); [exact Ho|].
    destruct Ho as [Ho|[l [-> Hl]]].
    - destruct o' as [l|]; simpl in *.
      + destruct (mem k l); [left; exact Ho|right; eauto].
      + right; exists []; split; [reflexivity|apply subseq_nil_l].
    - simpl; rewrite mem_app_last; right; eauto. }
  destruct (Hinv o (or_introl H0)) as [H|[l [-> Hl]]].
  - destruct (fold_left _ _ o) as [l|]; simpl in *; [|exact Logic.I].
    rewrite <- (app_nil_r l); apply subseq_app; [exact H|apply subseq_nil_l].
  - simpl; apply subseq_app; [exact Hl|apply subseq_refl].
Qed.

Lemma cat_step_subseq sl K : forall o P,
  opt_sub o P -> opt_sub (fold_left (cat_step sl) (kw_matches sl K) o) (P ++ K).
Proof.
  induction K as [|k K IH]; intros o P H; simpl.
  - rewrite app_nil_r; exact H.
  - unfold kw_matches in *; simpl; rewrite fold_left_app.
    replace (P ++ k :: K) with ((P ++ [k]) ++ K) by (rewrite <- app_assoc; reflexivity).
    apply IH, cat_step_block, H.
Qed.

(** * The negation window *)

Lemma in_lastn {A} n (l : list A) w :
  In w (lastn n l) <->
  exists k, 1 <= k <= n /\ k <= length l /\ nth_error l (length l - k) = Some w.
Proof.
  unfold lastn; split.
  - intros Hin; apply In_nth_error in Hin as [m Hm].
    assert (Hlt : m < length (skipn (length l - n) l))
      by (apply nth_error_Some; congruence).
    rewrite length_skipn in Hlt; rewrite nth_error_skipn in Hm.
    exists (length l - (length l - n + m)); split; [lia|split; [lia|]].
    replace (length l - (length l - (length l - n + m))) with (length l - n + m) by lia.
    exact Hm.
  - intros [k [Hk [Hkl Hw]]].
    apply (nth_error_In _ ((length l - k) - (length l - n))).
    rewrite nth_error_skipn.
    replace (length l - n + (length l - k - (length l - n))) with (length l - k) by lia.
    exact Hw.
Qed.

Lemma mem_In x l : mem x l = true <-> In x l.
Proof.
  unfold mem; rewrite existsb_exists; split.
  - intros [y [Hy Heq]]; apply String.eqb_eq in Heq; subst; exact Hy.
  - intros Hx; exists x; split; [exact Hx|apply String.eqb_refl].
Qed.

Lemma first_action_spec sl pre a verbs post :
  (exists v, In v verbs /\ search false sl (las v) = true) ->
  (forall a' vs v, In (a', vs) pre -> In v vs -> search false sl (las v) = false) ->
  first_action sl (pre ++ (a, verbs) :: post) = a.
Proof.
  intros [v [Hv Hs]] Hpre; induction pre as [|[a' vs] pre IH]; simpl.
  - replace (existsb (fun verb => search false sl (las verb)) verbs) with true;
      [reflexivity|symmetry; apply existsb_exists; eauto].
  - replace (existsb (fun verb => search false sl (las verb)) vs) with false.
    + apply IH; intros; eapply Hpre; [right|]; eauto.
    + symmetry; apply Bool.not_true_iff_false; intros Hex.
      apply existsb_exists in Hex as [v' [Hv' Hs']].
      rewrite (Hpre a' vs v') in Hs'; [discriminate|left; reflexivity|exact Hv'].
Qed.

Lemma first_action_default sl acts :
  (forall a vs v, In (a, vs) acts -> In v vs -> search false sl (las v) = false) ->
  first_action sl acts = "create".
Proof.
  induction acts as [|[a vs] acts IH]; intros H; simpl; [reflexivity|].
  replace (existsb (fun verb => search false sl (las verb)) vs) with false.
  - apply IH; intros; eapply H; [right|]; eauto.
  - symmetry; apply Bool.not_true_iff_false; intros Hex.
    apply existsb_exists in Hex as [v' [Hv' Hs']].
    rewrite (H a vs v') in Hs'; [discriminate|left; reflexivity|exact Hv'].
Qed.

(** * Claims *)

(** C1 (as corrected).  A keyword occurrence starting at [pos] is negated
    exactly when one of the (at most) five whitespace tokens before [pos],
    at token-distance [k] with [1 <= k <= 5], is a negation cue.  So in
    "no x x x x vpc" the cue "no" (distance 5) negates "vpc", while in
    "no x x x x x vpc" it is at distance 6 and does not. *)
Theorem has_negation_window :
  (forall (t : text) (pos : nat),
     has_negation t pos = true <->
     exists k w, 1 <= k <= 5 /\ k <= length (split (firstn pos t)) /\
       nth_error (split (firstn pos t)) (length (split (firstn pos t)) - k) = Some w /\
       negation_cue w = true) /\
  finditer true (lower "no x x x x vpc") (las "vpc") = [11] /\
  has_negation (lower "no x x x x vpc") 11 = true /\
  negated_categories (detect_intents "no x x x x vpc") = ["networking"] /\
  categories (detect_intents "no x x x x vpc") = [] /\
  finditer true (lower "no x x x x x x vpc") (las "vpc") = [15] /\
  has_negation (lower "no x x x x x x vpc") 15 = false /\
  categories (detect_intents "no x x x x x x vpc") = [("networking", ["vpc"])] /\
  negated_categories (detect_intents "no x x x x x x vpc") = [].
Proof.
  split.
  - intros t pos; unfold has_negation.
    change (existsb negation_cue (lastn 5 (split (firstn pos t))) = true <->
            exists k w, 1 <= k <= 5 /\ k <= length (split (firstn pos t)) /\
              nth_error (split (firstn pos t)) (length (split (firstn pos t)) - k) = Some w /\
              negation_cue w = true).
    rewrite existsb_exists; split.
    + intros [w [Hin Hc]]; apply in_lastn in Hin as [k [Hk [Hkl Hw]]].
      exists k, w; auto.
    + intros [k [w [Hk [Hkl [Hw Hc]]]]]; exists w; split; [|exact Hc].
      apply in_lastn; eauto.
  - vm_compute; repeat split.
Qed.

(** C1: counterexample.  In "no x x x x x vpc" the keyword "vpc" starts at
    13, the five tokens before it are all "x", and the occurrence is not
    negated: [detect_intents] records networking as affirmed. *)
Lemma has_negation_distance6_counterexample :
  finditer true (lower "no x x x x x vpc") (las "vpc") = [13] /\
  has_negation (lower "no x x x x x vpc") 13 = false /\
  categories (detect_intents "no x x x x x vpc") = [("networking", ["vpc"])] /\
  negated_categories (detect_intents "no x x x x x vpc") = [].
Proof. vm_compute; repeat split. Qed.

(** C2.  [validate_intent] returns false exactly when the categories
    mapping is empty or some category is both in [categories] and in
    [negated_categories]; it is a pure function of the result. *)
Theorem validate_intent_false_iff (r : DetectionResult) :
  validate_intent r = false <->
  categories r = [] \/
  exists c, In c (negated_categories r) /\ In c (map fst (categories r)).
Proof.
  unfold validate_intent.
  destruct (existsb (fun c => mem c (map fst (categories r))) (negated_categories r)) eqn:E.
  - split; [intros _|reflexivity].
    right; apply existsb_exists in E as [c [Hc Hm]].
    exists c; split; [exact Hc|apply mem_In, Hm].
  - destruct (categories r) as [|p l] eqn:Ec; [split; auto|].
    split; [discriminate|].
    intros [H|[c [H1 H2]]]; [discriminate|].
    rewrite <- Ec in H2; apply mem_In in H2.
    assert (Ht : existsb (fun c => mem c (map fst (categories r))) (negated_categories r) = true)
      by (apply existsb_exists; eauto).
    rewrite Ec in Ht; congruence.
Qed.

(** C3.  [extract_action] returns the first action of [ACTION_VERBS] (in
    declared order) one of whose verbs occurs as a whole word in the
    lowercased sentence, and "create" when none does; hence any sentence
    with a create verb ("deploy") and a delete verb ("remove") yields
    "create", whatever their order. *)
Theorem extract_action_priority :
  (forall s pre a verbs post,
     ACTION_VERBS = pre ++ (a, verbs) :: post ->
     (exists v, In v verbs /\ search false (lower s) (las v) = true) ->
     (forall a' vs v, In (a', vs) pre -> In v vs -> search false (lower s) (las v) = false) ->
     extract_action s = a) /\
  (forall s,
     (forall a vs v, In (a, vs) ACTION_VERBS -> In v vs ->
                     search false (lower s) (las v) = false) ->
     extract_action s = "create") /\
  (forall s cv dv,
     assoc "create" ACTION_VERBS = Some cv -> assoc "delete" ACTION_VERBS = Some dv ->
     (exists v, In v cv /\ search false (lower s) (las v) = true) ->
     (exists v, In v dv /\ search false (lower s) (las v) = true) ->
     extract_action s = "create") /\
  extract_action "remove the vpc and deploy a server" = "create".
Proof.
  split; [|split; [|split]].
  - intros s pre a verbs post Heq Hv Hpre; unfold extract_action; rewrite Heq.
    apply first_action_spec; assumption.
  - intros s H; apply first_action_default; exact H.
  - intros s cv dv Hc Hd Hv _; simpl in Hc; inversion Hc; subst cv.
    unfold extract_action.
    apply (first_action_spec (lower s) [] "create" _ (skipn 1 ACTION_VERBS)); auto.
    intros a' vs v [].
  - vm_compute; reflexivity.
Qed.

(** C4.  The round-trip scenario
    "Deploy a small Ubuntu server on AWS with MySQL". *)
Theorem roundtrip_scenario :
  categories (detect_intents "Deploy a small Ubuntu server on AWS with MySQL") =
    [("compute", ["server"; "small"]); ("database", ["mysql"]);
     ("provider", ["aws"]); ("os", ["ubuntu"])] /\
  assoc "compute" (categories (detect_intents "Deploy a small Ubuntu server on AWS with MySQL"))
    = Some ["server"; "small"] /\
  assoc "os" (categories (detect_intents "Deploy a small Ubuntu server on AWS with MySQL"))
    = Some ["ubuntu"] /\
  assoc "provider" (categories (detect_intents "Deploy a small Ubuntu server on AWS with MySQL"))
    = Some ["aws"] /\
  assoc "database" (categories (detect_intents "Deploy a small Ubuntu server on AWS with MySQL"))
    = Some ["mysql"] /\
  action (detect_intents "Deploy a small Ubuntu server on AWS with MySQL") = "create" /\
  negated_categories (detect_intents "Deploy a small Ubuntu server on AWS with MySQL") = [] /\
  validate_intent (detect_intents "Deploy a small Ubuntu server on AWS with MySQL") = true /\
  normalize_provider (detect_intents "Deploy a small Ubuntu server on AWS with MySQL")
    = Some "aws" /\
  extract_os (detect_intents "Deploy a small Ubuntu server on AWS with MySQL")
    = Some "Ubuntu".
Proof. vm_compute; repeat split. Qed.

(** C5.  A sentence whose only keyword match (over all categories) is one
    occurrence of [kw] from category [c], not negated, yields exactly
    [c -> [kw]] and leaves [c] out of the negated categories.  Matching is
    at word boundaries: "db" inside "adbc" is no match. *)
Theorem single_keyword_detected (s c kw : string) (i : nat)
    (Hm : matches (lower s) = [(c, kw, i)])
    (Hn : has_negation (lower s) i = false) :
  categories (detect_intents s) = [(c, [kw])] /\
  ~ In c (negated_categories (detect_intents s)) /\
  finditer true (lower "adbc") (las "db") = [] /\
  matches (lower "adbc") = [].
Proof.
  rewrite detect_intents_fold, Hm; simpl; rewrite Hn; simpl.
  split; [reflexivity|split; [intros []|vm_compute; split; reflexivity]].
Qed.

Lemma single_keyword_detected_witness :
  matches (lower "create a vpc") = [("networking", "vpc", 9)] /\
  has_negation (lower "create a vpc") 9 = false /\
  categories (detect_intents "create a vpc") = [("networking", ["vpc"])].
Proof.
  split; [vm_compute; reflexivity|split; [vm_compute; reflexivity|]].
  apply (single_keyword_detected "create a vpc" "networking" "vpc" 9);
    vm_compute; reflexivity.
Defined.

(** * Lemmas shared by the claims on the keyword lists *)

Lemma detect_keywords_subseq s c l :
  assoc c (categories (detect_intents s)) = Some l -> subseq l (table_keywords c).
Proof.
  intros H; rewrite category_projection, category_keywords_table in H.
  pose proof (cat_step_subseq (lower s) (table_keywords c) None [] Logic.I) as Hs.
  rewrite H in Hs; exact Hs.
Qed.

Lemma subseq_incl {A} (l1 l2 : list A) x : subseq l1 l2 -> In x l1 -> In x l2.
Proof.
  induction 1; simpl; [auto|auto|intros [->|H']; auto].
Qed.

Lemma subseq_head {A} (l : list A) x rest :
  subseq l (x :: rest) -> In x l -> ~ In x rest -> exists l', l = x :: l'.
Proof.
  intros Hs Hin Hn; inversion Hs; subst.
  - exfalso; apply Hn; eapply subseq_incl; eauto.
  - eauto.
Qed.

Lemma space_not_word c : is_space c = true -> is_word (lower_char c) = false.
Proof.
  destruct c as [[] [] [] [] [] [] [] []]; vm_compute; intros; (reflexivity || discriminate).
Qed.

Lemma no_match_in_spaces s kw i :
  Forall (fun ch => is_space ch = true) (las s) -> match_at true (lower s) kw i = false.
Proof.
  intros Hsp.
  assert (Hw : forall j, word_at (lower s) j = false).
  { intros j; unfold word_at, lower; rewrite nth_error_map.
    destruct (nth_error (las s) j) as [ch|] eqn:E; simpl; [|reflexivity].
    apply space_not_word; rewrite Forall_forall in Hsp; apply Hsp.
    eapply nth_error_In; eauto. }
  unfold match_at, boundary, word_before.
  destruct i; rewrite Hw; [reflexivity|rewrite Hw; reflexivity].
Qed.

Lemma flat_map_nil {A B} (f : A -> list B) l :
  (forall x, In x l -> f x = []) -> flat_map f l = [].
Proof.
  induction l as [|x l IH]; intros H; simpl; [reflexivity|].
  rewrite H by (left; reflexivity); apply IH; intros; apply H; right; auto.
Qed.

Lemma matches_nil s :
  (forall c d kw i, In (c, d) INTENT_CATEGORIES -> In kw (keywords d) ->
                    match_at true (lower s) (las kw) i = false) ->
  matches (lower s) = [].
Proof.
  intros H; unfold matches; apply flat_map_nil; intros [c d] Hin.
  unfold kw_matches; rewrite flat_map_nil; [reflexivity|].
  intros kw Hkw.
  destruct (finditer true (lower s) (las kw)) as [|j l] eqn:E; [reflexivity|].
  assert (Hj : In j (finditer true (lower s) (las kw))) by (rewrite E; left; reflexivity).
  apply finditer_sound in Hj; rewrite (H c d kw j Hin Hkw) in Hj; discriminate.
Qed.

(** C6 (as corrected).  [normalize_provider] maps the first keyword of the
    provider list to one of "aws", "azure", "gcp" by substring containment
    on the aliases, checked in the code's order: "aws" or "amazon" gives
    "aws", else "azure" or "microsoft" gives "azure", else "gcp" or
    "google" gives "gcp"; it returns [None] when the provider category is
    missing, its list is empty or no alias matches.  Sentences with a
    non-negated occurrence of the provider keyword "aws" or "amazon web
    services" normalize to "aws". *)
Theorem normalize_provider_aliases :
  (forall r, normalize_provider r = None \/ normalize_provider r = Some "aws" \/
             normalize_provider r = Some "azure" \/ normalize_provider r = Some "gcp") /\
  (forall r, assoc "provider" (categories r) = None -> normalize_provider r = None) /\
  (forall r, assoc "provider" (categories r) = Some [] -> normalize_provider r = None) /\
  (forall r k l, assoc "provider" (categories r) = Some (k :: l) ->
     str_contains (las "aws") (lower k) || str_contains (las "amazon") (lower k) = true ->
     normalize_provider r = Some "aws") /\
  (forall r k l, assoc "provider" (categories r) = Some (k :: l) ->
     str_contains (las "aws") (lower k) || str_contains (las "amazon") (lower k) = false ->
     str_contains (las "azure") (lower k) || str_contains (las "microsoft") (lower k) = true ->
     normalize_provider r = Some "azure") /\
  (forall r k l, assoc "provider" (categories r) = Some (k :: l) ->
     str_contains (las "aws") (lower k) || str_contains (las "amazon") (lower k) = false ->
     str_contains (las "azure") (lower k) || str_contains (las "microsoft") (lower k) = false ->
     str_contains (las "gcp") (lower k) || str_contains (las "google") (lower k) = true ->
     normalize_provider r = Some "gcp") /\
  (forall r k l, assoc "provider" (categories r) = Some (k :: l) ->
     existsb (fun a => str_contains (las a) (lower k))
             ["aws"; "amazon"; "azure"; "microsoft"; "gcp"; "google"] = false ->
     normalize_provider r = None) /\
  (forall s kw i, In kw ["aws"; "amazon web services"] ->
     In i (finditer true (lower s) (las kw)) -> has_negation (lower s) i = false ->
     normalize_provider (detect_intents s) = Some "aws") /\
  normalize_provider (detect_intents "deploy on amazon web services") = Some "aws" /\
  normalize_provider (detect_intents "deploy on aws") = Some "aws" /\
  normalize_provider (detect_intents "deploy on azure") = Some "azure" /\
  normalize_provider (detect_intents "deploy on microsoft azure") = Some "azure" /\
  normalize_provider (detect_intents "deploy on gcp") = Some "gcp" /\
  normalize_provider (detect_intents "deploy on google cloud") = Some "gcp" /\
  normalize_provider (detect_intents "deploy on google cloud platform") = Some "gcp".
Proof.
  split; [|split; [|split; [|split; [|split; [|split; [|split; [|split]]]]]]].
  - intros r; unfold normalize_provider.
    destruct (assoc "provider" (categories r)) as [[|k l]|]; [left; reflexivity| |left; reflexivity].
    repeat match goal with |- context [if ?b then _ else _] => destruct b end;
    first [left; reflexivity | right; left; reflexivity
          | right; right; left; reflexivity | right; right; right; reflexivity].
  - intros r H; unfold normalize_provider; rewrite H; reflexivity.
  - intros r H; unfold normalize_provider; rewrite H; reflexivity.
  - intros r k l H Ha; unfold normalize_provider; rewrite H; cbv beta iota zeta; rewrite Ha; reflexivity.
  - intros r k l H Ha Hz; unfold normalize_provider; rewrite H; cbv beta iota zeta;
    rewrite Ha, Hz; reflexivity.
  - intros r k l H Ha Hz Hg; unfold normalize_provider; rewrite H; cbv beta iota zeta;
    rewrite Ha, Hz, Hg; reflexivity.
  - intros r k l H Hn; unfold normalize_provider; rewrite H; simpl in *.
    repeat match goal with
    | Hn : (?x || _) = false |- _ => apply Bool.orb_false_iff in Hn as [?Hx Hn]
    | Hn : (?x || false) = false |- _ => rewrite Bool.orb_false_r in Hn
    end.
    repeat match goal with Hx : ?b = false |- context [?b] => rewrite Hx end.
    simpl; reflexivity.
  - intros s kw i Hkw Hi Hn; unfold normalize_provider; rewrite category_projection.
    replace (category_keywords "provider") with
      (["aws"; "amazon web services"] ++
       ["azure"; "microsoft azure"; "gcp"; "google cloud"; "google cloud platform"])
      by (vm_compute; reflexivity).
    rewrite kw_matches_app.
    destruct (cat_step_first (lower s) (fun k => In k ["aws"; "amazon web services"])
                (kw_matches (lower s) ["aws"; "amazon web services"])
                (kw_matches (lower s)
                   ["azure"; "microsoft azure"; "gcp"; "google cloud"; "google cloud platform"]))
      as [k [l [Heq Hk]]].
    + exists kw, i; split; [apply in_kw_matches; auto|exact Hn].
    + intros kw' i' Hin; apply in_kw_matches in Hin; tauto.
    + rewrite Heq; destruct Hk as [<-|[<-|[]]]; vm_compute; reflexivity.
  - vm_compute; repeat split; reflexivity.
Qed.

(** C6: counterexample.  "amazon" alone is not a provider keyword: the
    sentence "deploy a server on amazon" has no provider category and
    normalizes to [None], not "aws". *)
Lemma normalize_provider_amazon_counterexample :
  assoc "provider" (categories (detect_intents "deploy a server on amazon")) = None /\
  normalize_provider (detect_intents "deploy a server on amazon") = None.
Proof. vm_compute; split; reflexivity. Qed.

(** C7 (as corrected).  [extract_os] returns [None] when the os category
    is missing or its list is empty, and otherwise maps the FIRST keyword
    of the os list: "rhel" to "RHEL", "amazon linux" to "Amazon Linux",
    any other keyword to its capitalization.  For a result of
    [detect_intents], a list containing "ubuntu" starts with it ("ubuntu"
    heads the os table), so it yields "Ubuntu". *)
Theorem extract_os_first_keyword :
  (forall r, assoc "os" (categories r) = None -> extract_os r = None) /\
  (forall r, assoc "os" (categories r) = Some [] -> extract_os r = None) /\
  (forall r l, assoc "os" (categories r) = Some ("rhel" :: l) -> extract_os r = Some "RHEL") /\
  (forall r l, assoc "os" (categories r) = Some ("amazon linux" :: l) ->
               extract_os r = Some "Amazon Linux") /\
  (forall r k l, assoc "os" (categories r) = Some (k :: l) ->
     k <> "rhel" -> k <> "amazon linux" -> extract_os r = Some (capitalize k)) /\
  (forall r l, assoc "os" (categories r) = Some ("ubuntu" :: l) -> extract_os r = Some "Ubuntu") /\
  (forall s l, assoc "os" (categories (detect_intents s)) = Some l -> In "ubuntu" l ->
     extract_os (detect_intents s) = Some "Ubuntu") /\
  extract_os (detect_intents "deploy a rhel server") = Some "RHEL" /\
  extract_os (detect_intents "deploy an amazon linux server") = Some "Amazon Linux" /\
  extract_os (detect_intents "deploy an ubuntu server") = Some "Ubuntu".
Proof.
  split; [|split; [|split; [|split; [|split; [|split; [|split]]]]]].
  - intros r H; unfold extract_os; rewrite H; reflexivity.
  - intros r H; unfold extract_os; rewrite H; reflexivity.
  - intros r l H; unfold extract_os; rewrite H; reflexivity.
  - intros r l H; unfold extract_os; rewrite H; reflexivity.
  - intros r k l H H1 H2; unfold extract_os; rewrite H.
    apply String.eqb_neq in H1, H2; rewrite H1, H2; reflexivity.
  - intros r l H; unfold extract_os; rewrite H; reflexivity.
  - intros s l H Hu.
    pose proof (detect_keywords_subseq s "os" l H) as Hs.
    change (table_keywords "os") with
      ("ubuntu" :: ["windows"; "amazon linux"; "centos"; "rhel"; "debian"; "fedora"]) in Hs.
    destruct (subseq_head l _ _ Hs Hu) as [l' ->].
    + simpl; intros H'; repeat (destruct H' as [H'|H']; [discriminate|]); exact H'.
    + unfold extract_os; rewrite H; reflexivity.
  - vm_compute; repeat split.
Qed.

(** C7: counterexample.  The os category of "ubuntu or rhel" contains
    "rhel", yet [extract_os] yields "Ubuntu", the capitalization of its
    first keyword. *)
Lemma extract_os_contains_rhel_counterexample :
  assoc "os" (categories (detect_intents "ubuntu or rhel")) = Some ["ubuntu"; "rhel"] /\
  extract_os (detect_intents "ubuntu or rhel") = Some "Ubuntu".
Proof. vm_compute; split; reflexivity. Qed.

(** C8.  For a sentence in which no declared keyword matches (in
    particular the empty string and whitespace-only strings),
    [detect_intents] returns empty categories and empty negated categories;
    [validate_intent] is false, and [normalize_provider] and [extract_os]
    return [None]. *)
Theorem no_keyword_graceful (s : string)
    (H : (forall c d kw i, In (c, d) INTENT_CATEGORIES -> In kw (keywords d) ->
                           match_at true (lower s) (las kw) i = false) \/
         Forall (fun ch => is_space ch = true) (las s)) :
  categories (detect_intents s) = [] /\
  negated_categories (detect_intents s) = [] /\
  validate_intent (detect_intents s) = false /\
  normalize_provider (detect_intents s) = None /\
  extract_os (detect_intents s) = None.
Proof.
  assert (Hm : matches (lower s) = []).
  { apply matches_nil; destruct H as [H|H]; [exact H|].
    intros; apply no_match_in_spaces; exact H. }
  rewrite detect_intents_fold, Hm; simpl.
  repeat split; reflexivity.
Qed.

Lemma no_keyword_graceful_witness :
  Forall (fun ch => is_space ch = true) (las " ") /\
  categories (detect_intents " ") = [] /\ validate_intent (detect_intents " ") = false.
Proof.
  assert (Hsp : Forall (fun ch => is_space ch = true) (las " "))
    by (repeat constructor).
  destruct (no_keyword_graceful " " (or_intror Hsp)) as [H1 [_ [H3 _]]].
  split; [exact Hsp|split; [exact H1|exact H3]].
Defined.

(** C9.  For every sentence and category [c] present in the result, the
    keyword list of [c] is an ordered sub-sequence of [c]'s keyword table:
    keywords come in table order, not in order of first occurrence; so
    "mysql database" yields ["database"; "mysql"]. *)
Theorem keyword_list_table_order (s c : string) (l : list string)
    (H : assoc c (categories (detect_intents s)) = Some l) :
  subseq l (table_keywords c) /\
  categories (detect_intents "mysql database") = [("database", ["database"; "mysql"])].
Proof.
  split; [exact (detect_keywords_subseq s c l H)|vm_compute; reflexivity].
Qed.

Lemma keyword_list_table_order_witness :
  assoc "database" (categories (detect_intents "mysql database")) = Some ["database"; "mysql"] /\
  subseq ["database"; "mysql"] (table_keywords "database").
Proof.
  assert (H : assoc "database" (categories (detect_intents "mysql database"))
              = Some ["database"; "mysql"]) by (vm_compute; reflexivity).
  split; [exact H|].
  exact (proj1 (keyword_list_table_order "mysql database" "database" _ H)).
Defined.

(** C10.  A token of the negation window is a cue when some alternative of
    [NEGATION_PATTERNS] occurs in it between word boundaries, anywhere in
    the token: "not," and "no-database" are cues and negate the next
    keyword occurrence, "cannot" is not. *)
Theorem negation_cue_word_boundary :
  (forall w, negation_cue w = true <->
     exists p a i, In p NEGATION_PATTERNS /\ In a p /\ match_at true w (las a) i = true) /\
  negation_cue (las "not,") = true /\
  negation_cue (las "no-database") = true /\
  negation_cue (las "cannot") = false /\
  negated_categories (detect_intents "deploy not, vpc") = ["networking"] /\
  categories (detect_intents "deploy not, vpc") = [] /\
  negated_categories (detect_intents "no-database vpc") = ["networking"; "database"] /\
  categories (detect_intents "no-database vpc") = [] /\
  categories (detect_intents "i cannot use a vpc") = [("networking", ["vpc"])] /\
  negated_categories (detect_intents "i cannot use a vpc") = [].
Proof.
  split.
  - intros w; unfold negation_cue, search_alt; rewrite existsb_exists; split.
    + intros [p [Hp Hs]]; apply existsb_exists in Hs as [i [_ Hi]].
      apply existsb_exists in Hi as [a [Ha Hm]]; eauto 7.
    + intros [p [a [i [Hp [Ha Hm]]]]]; exists p; split; [exact Hp|].
      apply existsb_exists; exists i; split.
      * unfold match_at in Hm; apply andb_prop in Hm as [Hm _].
        apply andb_prop in Hm as [Hb _]; apply boundary_le in Hb.
        apply in_seq; lia.
      * apply existsb_exists; eauto.
  - vm_compute; repeat split.
Qed.

(** * Exact form of the result of [detect_intents] *)

Lemma nodupb_NoDup l : nodupb l = true -> NoDup l.
Proof.
  induction l as [|x l IH]; simpl; intros H; [constructor|].
  apply andb_prop in H as [Hx Hl]; constructor; [|auto].
  intros Hin; apply mem_In in Hin; rewrite Hin in Hx; discriminate.
Qed.

Lemma assoc_In {A} c (T : list (string * A)) d : assoc c T = Some d -> In (c, d) T.
Proof.
  induction T as [|[c' d'] T IH]; simpl; [discriminate|].
  destruct (String.eqb_spec c c') as [->|]; [intros H; inversion H; auto|auto].
Qed.

Lemma in_map_fst_assoc {A} c (m : list (string * A)) :
  In c (map fst m) <-> assoc c m <> None.
Proof.
  induction m as [|[c' v] m IH]; simpl; [tauto|].
  destruct (String.eqb_spec c c') as [->|Hne]; [split; [discriminate|auto]|].
  rewrite <- IH; split; [intros [H|H]; [congruence|exact H]|auto].
Qed.

Lemma table_names_NoDup : NoDup (map fst INTENT_CATEGORIES).
Proof. apply nodupb_NoDup; vm_compute; reflexivity. Qed.

Lemma table_keywords_NoDup_all c d :
  In (c, d) INTENT_CATEGORIES -> NoDup (keywords d).
Proof.
  intros H; apply nodupb_NoDup.
  assert (Hall : forallb (fun '(_, d) => nodupb (keywords d)) INTENT_CATEGORIES = true)
    by (vm_compute; reflexivity).
  rewrite forallb_forall in Hall; apply (Hall (c, d) H).
Qed.

Lemma table_keywords_NoDup c : NoDup (table_keywords c).
Proof.
  unfold table_keywords; destruct (assoc c INTENT_CATEGORIES) as [d|] eqn:E;
    [|constructor].
  apply (table_keywords_NoDup_all c), assoc_In, E.
Qed.

Lemma add_kw_idem k o : add_kw k (Some (add_kw k o)) = add_kw k o.
Proof.
  destruct o as [l|]; simpl.
  - destruct (mem k l) eqn:E; simpl; [rewrite E; reflexivity|rewrite mem_app_last; reflexivity].
  - rewrite String.eqb_refl; reflexivity.
Qed.

Lemma cat_step_block_exact sl k I : forall o,
  fold_left (cat_step sl) (map (fun i => (k, i)) I) o =
  if existsb (fun i => negb (has_negation sl i)) I then Some (add_kw k o) else o.
Proof.
  induction I as [|i I IH]; intros o; simpl; [reflexivity|].
  destruct (has_negation sl i); simpl; [apply IH|].
  rewrite IH; destruct (existsb _ I); [rewrite add_kw_idem|]; reflexivity.
Qed.

Lemma cat_step_exact sl K : NoDup K -> forall o,
  (forall k, In k K -> match o with Some l0 => ~ In k l0 | None => True end) ->
  fold_left (cat_step sl) (kw_matches sl K) o = opt_app o (filter (affirmed sl) K).
Proof.
  induction K as [|k K IH]; intros Hnd o Ho; simpl.
  - destruct o; simpl; [rewrite app_nil_r|]; reflexivity.
  - inversion Hnd as [|? ? Hk HK]; subst.
    unfold kw_matches in *; simpl; rewrite fold_left_app, cat_step_block_exact.
    fold (kw_matches sl K); unfold affirmed at 1.
    destruct (existsb _ (finditer true sl (las k))).
    + rewrite IH; [|exact HK|].
      * destruct o as [l0|]; simpl.
        -- assert (Hm : mem k l0 = false)
             by (apply Bool.not_true_iff_false; rewrite mem_In; apply (Ho k); left; auto).
           rewrite Hm, <- app_assoc; reflexivity.
        -- reflexivity.
      * intros k' Hk'; destruct o as [l0|]; simpl.
        -- destruct (mem k l0); [apply (Ho k'); right; auto|].
           rewrite in_app_iff; intros [H|[H|[]]]; [apply (Ho k'); [right|]; auto|subst; auto].
        -- intros [H|[]]; subst; auto.
    + apply IH; [exact HK|intros k' Hk'; apply Ho; right; auto].
Qed.

Lemma cat_add_tail c kw m o :
  ~ In c (map fst m) -> cat_add c kw (m ++ entry c o) = m ++ entry c (Some (add_kw kw o)).
Proof.
  induction m as [|[c' l'] m IH]; simpl; intros Hn.
  - destruct o as [l|]; simpl; [rewrite String.eqb_refl|]; reflexivity.
  - destruct (String.eqb_spec c c') as [->|]; [exfalso; auto|].
    rewrite IH; auto.
Qed.

Section Categories.
Variable sl : text.

Let F := fun d '(c, kw, i) => record_match c kw (has_negation sl i) d.

Lemma categories_block c m L : ~ In c (map fst m) -> forall d o,
  categories d = m ++ entry c o ->
  categories (fold_left F (map (fun '(kw, i) => (c, kw, i)) L) d) =
  m ++ entry c (fold_left (cat_step sl) L o).
Proof.
  intros Hn; induction L as [|[kw i] L IH]; intros d o Hd; simpl; [exact Hd|].
  apply IH; unfold F, record_match, cat_step.
  destruct (has_negation sl i); simpl; [exact Hd|].
  rewrite Hd; apply cat_add_tail, Hn.
Qed.

Lemma categories_table T : NoDup (map fst T) ->
  (forall c dd, In (c, dd) T -> NoDup (keywords dd)) -> forall d,
  (forall c, In c (map fst T) -> ~ In c (map fst (categories d))) ->
  categories (fold_left F
     (flat_map (fun '(c, data) => map (fun '(kw, i) => (c, kw, i))
                                      (kw_matches sl (keywords data))) T) d) =
  categories d ++
  flat_map (fun '(c, dd) => entry c (nonempty_opt (filter (affirmed sl) (keywords dd)))) T.
Proof.
  induction T as [|[c dd] T IH]; intros HT Hkw d Hd; simpl; [rewrite app_nil_r; reflexivity|].
  inversion HT as [|? ? Hc HT']; subst.
  rewrite fold_left_app.
  rewrite (IH HT' (fun c' dd' H => Hkw c' dd' (or_intror H))).
  - rewrite (categories_block c (categories d)) with (o := None);
      [| apply Hd; left; reflexivity | rewrite app_nil_r; reflexivity].
    rewrite cat_step_exact; [|apply (Hkw c); left; reflexivity|simpl; auto].
    simpl; rewrite app_assoc; reflexivity.
  - intros c' Hc'.
    rewrite (categories_block c (categories d)) with (o := None);
      [| apply Hd; left; reflexivity | rewrite app_nil_r; reflexivity].
    rewrite map_app, in_app_iff; intros [H|H].
    + apply (Hd c'); [right; exact Hc'|exact H].
    + destruct (fold_left _ _ None); simpl in H; [|exact H].
      destruct H as [->|[]]; contradiction.
Qed.

Lemma negated_fold evs : forall d c,
  In c (negated_categories (fold_left F evs d)) <->
  In c (negated_categories d) \/
  exists kw i, In (c, kw, i) evs /\ has_negation sl i = true.
Proof.
  induction evs as [|[[c' kw] i] evs IH]; intros d c; simpl.
  - split; [auto|intros [H|[? [? [[] _]]]]; exact H].
  - rewrite IH; unfold F, record_match.
    destruct (has_negation sl i) eqn:Hi; simpl.
    + unfold set_add; split.
      * intros [H|[kw' [i' [Hin Hn]]]]; [|right; eauto 6].
        destruct (mem c' (negated_categories d)) eqn:E; [auto|].
        apply in_app_iff in H as [H|[<-|[]]]; [auto|right; eauto 6].
      * intros [H|[kw' [i' [[Heq|Hin] Hn]]]].
        -- left; destruct (mem c' (negated_categories d)); [exact H|apply in_app_iff; auto].
        -- inversion Heq; subst; left.
           destruct (mem c (negated_categories d)) eqn:E;
             [apply mem_In, E|apply in_app_iff; right; left; reflexivity].
        -- right; eauto.
    + split; [intros [H|[kw' [i' [Hin Hn]]]]; [auto|right; eauto]|].
      intros [H|[kw' [i' [[Heq|Hin] Hn]]]]; [auto| |right; eauto].
      inversion Heq; subst; congruence.
Qed.

Lemma negated_NoDup evs : forall d,
  NoDup (negated_categories d) -> NoDup (negated_categories (fold_left F evs d)).
Proof.
  induction evs as [|[[c' kw] i] evs IH]; intros d Hd; simpl; [exact Hd|].
  apply IH; unfold F, record_match; destruct (has_negation sl i); simpl; [|exact Hd].
  unfold set_add; destruct (mem c' (negated_categories d)) eqn:E; [exact Hd|].
  apply NoDup_app; [exact Hd|repeat constructor; intros []|].
  intros x Hx [<-|[]]; apply mem_In in Hx; congruence.
Qed.

End Categories.

Lemma in_matches sl c kw i :
  In (c, kw, i) (matches sl) <->
  In kw (table_keywords c) /\ In i (finditer true sl (las kw)).
Proof.
  rewrite <- category_keywords_table; unfold matches, category_keywords.
  rewrite !in_flat_map; split.
  - intros [[c' dd] [Hin Hm]]; apply in_map_iff in Hm as [[kw' i'] [Heq Hm]].
    inversion Heq; subst; apply in_kw_matches in Hm as [Hk Hi].
    split; [|exact Hi]; eexists; split; [eassumption|]; simpl; rewrite String.eqb_refl; auto.
  - intros [[[c' dd] [Hin Hk]] Hi].
    destruct (String.eqb_spec c c') as [->|]; [|destruct Hk].
    exists (c', dd); split; [exact Hin|].
    apply in_map_iff; exists (kw, i); split; [reflexivity|apply in_kw_matches; auto].
Qed.

Lemma detect_category_assoc s c :
  assoc c (categories (detect_intents s)) =
  nonempty_opt (filter (affirmed (lower s)) (table_keywords c)).
Proof.
  rewrite category_projection, category_keywords_table.
  apply cat_step_exact; [apply table_keywords_NoDup|intros; exact Logic.I].
Qed.

Lemma nonempty_filter_existsb (f : string -> bool) l :
  nonempty_opt (filter f l) <> None <-> existsb f l = true.
Proof.
  induction l as [|x l IH]; simpl; [split; [congruence|discriminate]|].
  destruct (f x); simpl; [split; [auto|discriminate]|exact IH].
Qed.

Lemma detect_key_affirmed s c :
  In c (map fst (categories (detect_intents s))) <-> category_affirmed (lower s) c = true.
Proof.
  rewrite in_map_fst_assoc, detect_category_assoc; apply nonempty_filter_existsb.
Qed.

Lemma detect_negated_denied s c :
  In c (negated_categories (detect_intents s)) <-> category_denied (lower s) c = true.
Proof.
  rewrite detect_intents_fold, negated_fold; simpl.
  unfold category_denied, denied; rewrite existsb_exists; split.
  - intros [[]|[kw [i [Hin Hn]]]]; apply in_matches in Hin as [Hk Hi].
    exists kw; split; [exact Hk|apply existsb_exists; eauto].
  - intros [kw [Hk Hd]]; apply existsb_exists in Hd as [i [Hi Hn]].
    right; exists kw, i; split; [apply in_matches; auto|exact Hn].
Qed.

Lemma validate_intent_true_iff r :
  validate_intent r = true <->
  categories r <> [] /\
  forall c, In c (negated_categories r) -> ~ In c (map fst (categories r)).
Proof.
  unfold validate_intent.
  destruct (existsb (fun c => mem c (map fst (categories r))) (negated_categories r)) eqn:E.
  - split; [discriminate|intros [_ H]].
    apply existsb_exists in E as [c [Hc Hm]]; apply mem_In in Hm.
    exfalso; exact (H c Hc Hm).
  - assert (Hn : forall c, In c (negated_categories r) -> ~ In c (map fst (categories r))).
    { intros c Hc Hm; apply mem_In in Hm.
      assert (existsb (fun c => mem c (map fst (categories r))) (negated_categories r) = true)
        by (apply existsb_exists; eauto).
      congruence. }
    destruct (categories r); split; try discriminate; intros; try tauto.
    split; [discriminate|exact Hn].
Qed.

Lemma first_action_range sl acts :
  In (first_action sl acts) ("create" :: map fst acts).
Proof.
  induction acts as [|[a vs] acts IH]; simpl; [auto|].
  destruct (existsb _ vs); [right; left; reflexivity|].
  destruct IH as [H|H]; [left; exact H|right; right; exact H].
Qed.

Lemma normalize_provider_filter (f : string -> bool) r :
  assoc "provider" (categories r) = nonempty_opt (filter f (table_keywords "provider")) ->
  normalize_provider r =
  if f "aws" || f "amazon web services" then Some "aws"
  else if f "azure" || f "microsoft azure" then Some "azure"
  else if f "gcp" || f "google cloud" || f "google cloud platform" then Some "gcp"
  else None.
Proof.
  intros H; unfold normalize_provider; rewrite H.
  change (table_keywords "provider") with
    ["aws"; "amazon web services"; "azure"; "microsoft azure";
     "gcp"; "google cloud"; "google cloud platform"].
  simpl.
  destruct (f "aws"), (f "amazon web services"), (f "azure"), (f "microsoft azure"),
    (f "gcp"), (f "google cloud"), (f "google cloud platform"); vm_compute; reflexivity.
Qed.

Lemma extract_os_filter (f : string -> bool) r :
  assoc "os" (categories r) = nonempty_opt (filter f (table_keywords "os")) ->
  extract_os r =
  if f "ubuntu" then Some "Ubuntu"
  else if f "windows" then Some "Windows"
  else if f "amazon linux" then Some "Amazon Linux"
  else if f "centos" then Some "Centos"
  else if f "rhel" then Some "RHEL"
  else if f "debian" then Some "Debian"
  else if f "fedora" then Some "Fedora"
  else None.
Proof.
  intros H; unfold extract_os; rewrite H.
  change (table_keywords "os") with
    ["ubuntu"; "windows"; "amazon linux"; "centos"; "rhel"; "debian"; "fedora"].
  simpl.
  destruct (f "ubuntu"), (f "windows"), (f "amazon linux"), (f "centos"),
    (f "rhel"), (f "debian"), (f "fedora"); vm_compute; reflexivity.
Qed.

(** * Further properties of [intents.py] *)

(** X1.  Closed form of [detect_intents(s)["categories"]]: the categories
    of [INTENT_CATEGORIES] with a non-negated keyword occurrence, in table
    order, each with the keywords of its table that occur non-negated, in
    table order. *)
Theorem detect_categories_exact (s : string) :
  categories (detect_intents s) =
  flat_map (fun '(c, d) =>
              match filter (affirmed (lower s)) (keywords d) with
              | [] => []
              | l => [(c, l)]
              end) INTENT_CATEGORIES.
Proof.
  rewrite detect_intents_fold; unfold matches.
  rewrite categories_table.
  - change (categories (init_result s)) with (@nil (string * list string)).
    apply flat_map_ext; intros [c d].
    destruct (filter (affirmed (lower s)) (keywords d)); reflexivity.
  - apply table_names_NoDup.
  - apply table_keywords_NoDup_all.
  - intros c _ [].
Qed.

(** X2.  The keyword list of category [c] is the sub-list of [c]'s keyword
    table that occurs non-negated in the sentence; the category is absent
    when that sub-list is empty, and a present list is non-empty and
    duplicate-free. *)
Theorem detect_category_keywords_exact (s c : string) :
  assoc c (categories (detect_intents s)) =
    nonempty_opt (filter (affirmed (lower s)) (table_keywords c)) /\
  forall l, assoc c (categories (detect_intents s)) = Some l -> l <> [] /\ NoDup l.
Proof.
  split; [apply detect_category_assoc|].
  intros l H; rewrite detect_category_assoc in H.
  destruct (filter (affirmed (lower s)) (table_keywords c)) as [|k l'] eqn:E;
    simpl in H; [discriminate|inversion H; subst].
  split; [discriminate|rewrite <- E; apply NoDup_filter, table_keywords_NoDup].
Qed.

(** X3.  A category is in [negated_categories] exactly when some keyword
    of its table has a negated occurrence (whether or not another
    occurrence is affirmed); the set holds each category once. *)
Theorem detect_negated_exact (s c : string) :
  (In c (negated_categories (detect_intents s)) <-> category_denied (lower s) c = true) /\
  NoDup (negated_categories (detect_intents s)).
Proof.
  split; [apply detect_negated_denied|].
  rewrite detect_intents_fold; apply negated_NoDup; constructor.
Qed.

(** X4.  On a result of [detect_intents], [validate_intent] holds exactly
    when some category has a non-negated keyword occurrence and no
    category has both a non-negated and a negated one. *)
Theorem validate_detect_iff (s : string) :
  validate_intent (detect_intents s) = true <->
  (exists c, category_affirmed (lower s) c = true) /\
  (forall c, category_affirmed (lower s) c = true -> category_denied (lower s) c = false).
Proof.
  rewrite validate_intent_true_iff; split.
  - intros [Hne Hn]; split.
    + destruct (categories (detect_intents s)) as [|[c l] m] eqn:E; [congruence|].
      exists c; apply detect_key_affirmed; rewrite E; left; reflexivity.
    + intros c Ha; apply Bool.not_true_iff_false; intros Hd.
      apply detect_negated_denied in Hd; apply detect_key_affirmed in Ha.
      exact (Hn c Hd Ha).
  - intros [[c Hc] Hn]; split.
    + apply detect_key_affirmed in Hc; intros E; rewrite E in Hc; destruct Hc.
    + intros c' Hd Ha; apply detect_negated_denied in Hd; apply detect_key_affirmed in Ha.
      rewrite (Hn c' Ha) in Hd; discriminate.
Qed.

(** X5.  [normalize_provider] on a result of [detect_intents]: "aws" when
    "aws" or "amazon web services" occurs non-negated, else "azure" when
    "azure" or "microsoft azure" does, else "gcp" when one of the Google
    keywords does, else [None]. *)
Theorem normalize_provider_detect (s : string) :
  normalize_provider (detect_intents s) =
  if affirmed (lower s) "aws" || affirmed (lower s) "amazon web services" then Some "aws"
  else if affirmed (lower s) "azure" || affirmed (lower s) "microsoft azure" then Some "azure"
  else if affirmed (lower s) "gcp" || affirmed (lower s) "google cloud"
          || affirmed (lower s) "google cloud platform" then Some "gcp"
  else None.
Proof. apply normalize_provider_filter, detect_category_assoc. Qed.

(** X6.  [extract_os] on a result of [detect_intents] is the display name
    of the first os keyword of the table (ubuntu, windows, amazon linux,
    centos, rhel, debian, fedora) occurring non-negated, or [None]; the
    names are "Ubuntu", "Windows", "Amazon Linux", "Centos", "RHEL",
    "Debian" and "Fedora". *)
Theorem extract_os_detect (s : string) :
  extract_os (detect_intents s) =
  if affirmed (lower s) "ubuntu" then Some "Ubuntu"
  else if affirmed (lower s) "windows" then Some "Windows"
  else if affirmed (lower s) "amazon linux" then Some "Amazon Linux"
  else if affirmed (lower s) "centos" then Some "Centos"
  else if affirmed (lower s) "rhel" then Some "RHEL"
  else if affirmed (lower s) "debian" then Some "Debian"
  else if affirmed (lower s) "fedora" then Some "Fedora"
  else None.
Proof. apply extract_os_filter, detect_category_assoc. Qed.

(** X7.  [extract_action] only ever returns one of the four action kinds. *)
Theorem extract_action_range (s : string) :
  In (extract_action s) ["create"; "delete"; "modify"; "query"].
Proof.
  pose proof (first_action_range (lower s) ACTION_VERBS) as H.
  unfold extract_action; simpl in H |- *; tauto.
Qed.

(** X8.  [has_negation] never looks past the keyword position: text after
    it does not change whether the occurrence is negated. *)
Theorem has_negation_no_lookahead (t u : text) (pos : nat) (H : pos <= length t) :
  has_negation (t ++ u) pos = has_negation t pos.
Proof.
  unfold has_negation; rewrite firstn_app.
  replace (pos - length t) with 0 by lia; simpl; rewrite app_nil_r; reflexivity.
Qed.

Lemma has_negation_no_lookahead_witness :
  3 <= length (lower "no vpc") /\
  has_negation (lower "no vpc" ++ lower " not here") 3 = true.
Proof.
  split; [vm_compute; lia|].
  rewrite (has_negation_no_lookahead (lower "no vpc") (lower " not here") 3)
    by (vm_compute; lia).
  vm_compute; reflexivity.
Defined.
